(** * The Windows wakelock plugin

    A shallow embedding of [windows/runner/wakelock_plugin.cpp] and
    [windows/runner/wakelock_plugin.h], followed by the properties the
    specification states about it.

    The plugin has one piece of state, the file-level
    [static bool is_wakelock_enabled], and two kinds of effect: calls of
    the operating system's [SetThreadExecutionState], and replies given
    through the [flutter::MethodResult] object handed to the handler.
    Member functions are therefore embedded as computations in a small
    state-and-output monad [M]: the state is the static flag, the output
    is the chronological list of effects the computation performed. *)

From Stdlib Require Import ZArith List String Bool Lia.
Import ListNotations.

Local Open Scope Z_scope.

(* ================================================================= *)
(** ** The operating-system interface *)

(** [typedef DWORD EXECUTION_STATE;] an unsigned 32-bit word. *)
Definition EXECUTION_STATE : Type := Z.

(** The three flag constants the plugin passes to
    [SetThreadExecutionState].  They are declared by [<windows.h>], which
    is a system header and not part of the repository, so the embedding
    takes them as parameters. *)
Class ExecutionStateFlags : Type := {
  ES_SYSTEM_REQUIRED : EXECUTION_STATE;
  ES_DISPLAY_REQUIRED : EXECUTION_STATE;
  ES_CONTINUOUS : EXECUTION_STATE
}.

(** The values the Windows SDK gives them (winnt.h). *)
Definition winnt_h : ExecutionStateFlags := {|
  ES_SYSTEM_REQUIRED := 0x00000001;
  ES_DISPLAY_REQUIRED := 0x00000002;
  ES_CONTINUOUS := 0x80000000
|}.

(* ================================================================= *)
(** ** The host framework's types *)

Set Warnings "-register-all".

(** [flutter::EncodableValue], a variant.  The alternatives that carry
    floating-point data or custom objects are left out: the plugin only
    ever builds the [bool] alternative and never looks inside a value it
    receives. *)
Inductive EncodableValue : Type :=
| EncodableNull
| EncodableBool (b : bool)
| EncodableInt32 (n : Z)
| EncodableInt64 (n : Z)
| EncodableString (s : string)
| EncodableUint8List (bytes : list Z)
| EncodableList (items : list EncodableValue)
| EncodableMap (entries : list (EncodableValue * EncodableValue)).

Set Warnings "register-all".

(** [flutter::MethodCall<T>]: a method name and a possibly null pointer
    to the arguments. *)
Record MethodCall (T : Type) : Type := {
  method_name : string;
  arguments : option T
}.
Arguments method_name {T} _.
Arguments arguments {T} _.

(** What a handler can tell a [flutter::MethodResult<T>]:
    [Success(result)] (or [Success()] with no result), [Error(...)], or
    [NotImplemented()]. *)
Inductive MethodResultCall (T : Type) : Type :=
| Success (result : option T)
| Error (error_code error_message : string) (error_details : option T)
| NotImplemented.
Arguments Success {T} _.
Arguments Error {T} _ _ _.
Arguments NotImplemented {T}.

(** [std::string::compare], as an integer that is negative, zero or
    positive. *)
Definition std_string_compare (a b : string) : Z :=
  match String.compare a b with
  | Eq => 0
  | Lt => -1
  | Gt => 1
  end.

(* ================================================================= *)
(** ** State, effects and the monad *)

(** The process-wide state of the translation unit (line 17). *)
Record Globals : Type := { is_wakelock_enabled : bool }.

(** Its two values, under the names the specification uses. *)
Definition released : Globals := {| is_wakelock_enabled := false |}.
Definition held : Globals := {| is_wakelock_enabled := true |}.

(** The two operations of the plugin, [EnableWakelock] and
    [DisableWakelock]. *)
Inductive Operation : Type :=
| Enable
| Disable.

(** What a computation does, in the order it does it.  [OsCall] is a
    call of [SetThreadExecutionState] and [Replied] a call on the result
    object: these two are visible from outside.  [Entered] marks the
    entry into one of the two operations and [Stored] an assignment to
    [is_wakelock_enabled]: they let "this path calls that function" and
    "the call comes before the assignment" be read off the trace, also
    when the callee then does nothing. *)
Inductive Event : Type :=
| Entered (op : Operation)
| OsCall (esFlags : EXECUTION_STATE)
| Stored (enabled : bool)
| Replied (r : MethodResultCall EncodableValue).

Definition M (A : Type) : Type := Globals -> A * Globals * list Event.

Definition ret {A : Type} (a : A) : M A :=
  fun g => (a, g, []).

Definition bind {A B : Type} (m : M A) (k : A -> M B) : M B :=
  fun g =>
    let '(a, g1, out1) := m g in
    let '(b, g2, out2) := k a g1 in
    (b, g2, out1 ++ out2).

Notation "x <- c1 ;; c2" := (bind c1 (fun x => c2))
  (at level 61, c1 at next level, right associativity).
Notation "c1 ;; c2" := (bind c1 (fun _ => c2))
  (at level 61, right associativity).

Definition emit (e : Event) : M unit :=
  fun g => (tt, g, [e]).

Definition load_is_wakelock_enabled : M bool :=
  fun g => (is_wakelock_enabled g, g, []).

Definition store_is_wakelock_enabled (b : bool) : M unit :=
  fun _ => (tt, {| is_wakelock_enabled := b |}, [Stored b]).

(** Projections of a finished computation. *)
Definition state_after {A : Type} (m : M A) (g : Globals) : Globals :=
  snd (fst (m g)).

Definition events_of {A : Type} (m : M A) (g : Globals) : list Event :=
  snd (m g).

(** Observations on a list of effects. *)
Fixpoint os_calls (evs : list Event) : list EXECUTION_STATE :=
  match evs with
  | [] => []
  | OsCall es :: rest => es :: os_calls rest
  | _ :: rest => os_calls rest
  end.

Fixpoint entered (evs : list Event) : list Operation :=
  match evs with
  | [] => []
  | Entered op :: rest => op :: entered rest
  | _ :: rest => entered rest
  end.

Fixpoint replies (evs : list Event) : list (MethodResultCall EncodableValue) :=
  match evs with
  | [] => []
  | Replied r :: rest => r :: replies rest
  | _ :: rest => replies rest
  end.

(** The most recent request made to the operating system, if any. *)
Definition last_request (evs : list Event) : option EXECUTION_STATE :=
  last (map Some (os_calls evs)) None.

(* ================================================================= *)
(** ** The plugin *)

Section Plugin.

Context {flags : ExecutionStateFlags}.

(** [SetThreadExecutionState(esFlags)].  The function returns the
    previous execution state; every call site discards it. *)
Definition SetThreadExecutionState (esFlags : EXECUTION_STATE) : M unit :=
  emit (OsCall esFlags).

(** [result->Success(value)] and [result->NotImplemented()]. *)
Definition result_Success (value : EncodableValue) : M unit :=
  emit (Replied (Success (Some value))).

Definition result_NotImplemented : M unit :=
  emit (Replied NotImplemented).

(** [WakelockPlugin::EnableWakelock] (lines 58-67). *)
Definition EnableWakelock : M unit :=
  emit (Entered Enable) ;;
  enabled <- load_is_wakelock_enabled ;;
  if negb enabled then
    SetThreadExecutionState
      (Z.lor (Z.lor ES_CONTINUOUS ES_DISPLAY_REQUIRED) ES_SYSTEM_REQUIRED) ;;
    store_is_wakelock_enabled true
  else ret tt.

(** [WakelockPlugin::DisableWakelock] (lines 69-75). *)
Definition DisableWakelock : M unit :=
  emit (Entered Disable) ;;
  enabled <- load_is_wakelock_enabled ;;
  if enabled then
    SetThreadExecutionState ES_CONTINUOUS ;;
    store_is_wakelock_enabled false
  else ret tt.

(** [WakelockPlugin::WakelockPlugin] (line 37): an empty body. *)
Definition WakelockPlugin_constructor : M unit :=
  ret tt.

(** [WakelockPlugin::~WakelockPlugin] (lines 39-42). *)
Definition WakelockPlugin_destructor : M unit :=
  DisableWakelock.

(** [WakelockPlugin::HandleMethodCall] (lines 44-56). *)
Definition HandleMethodCall (method_call : MethodCall EncodableValue) : M unit :=
  if std_string_compare (method_name method_call) "enableWindows" =? 0 then
    EnableWakelock ;;
    result_Success (EncodableBool true)
  else if std_string_compare (method_name method_call) "disableWindows" =? 0 then
    DisableWakelock ;;
    result_Success (EncodableBool true)
  else
    result_NotImplemented.

(* ----------------------------------------------------------------- *)
(** *** Sequences of direct calls *)

(** A call of one of the two operations. *)
Definition perform (c : Operation) : M unit :=
  match c with
  | Enable => EnableWakelock
  | Disable => DisableWakelock
  end.

(** The request each operation is meant to make: the argument of the
    one [SetThreadExecutionState] call in its body. *)
Definition request_for (c : Operation) : EXECUTION_STATE :=
  match c with
  | Enable => Z.lor (Z.lor ES_CONTINUOUS ES_DISPLAY_REQUIRED) ES_SYSTEM_REQUIRED
  | Disable => ES_CONTINUOUS
  end.

Definition is_enable (c : Operation) : bool :=
  match c with
  | Enable => true
  | Disable => false
  end.

(* ----------------------------------------------------------------- *)
(** *** The life of the process *)

(** What the host can make the plugin do: construct an instance (as
    [RegisterWithRegistrar] does on line 27), deliver a method call to
    the handler installed on lines 29-32, or destroy an instance.  The
    flag is static, so which instance is concerned makes no difference. *)
Inductive Action : Type :=
| Construct
| Handle (method_call : MethodCall EncodableValue)
| Destroy.

Definition act (a : Action) : M unit :=
  match a with
  | Construct => WakelockPlugin_constructor
  | Handle method_call => HandleMethodCall method_call
  | Destroy => WakelockPlugin_destructor
  end.

(** A process: the static flag and everything that has happened so far. *)
Record Process : Type := {
  statics : Globals;
  history : list Event
}.

(** [static bool is_wakelock_enabled = false;] and nothing has happened. *)
Definition process_start : Process :=
  {| statics := released; history := [] |}.

Definition exec (m : M unit) (p : Process) : Process :=
  {| statics := state_after m (statics p);
     history := history p ++ events_of m (statics p) |}.

Definition exec_all {X : Type} (f : X -> M unit) (xs : list X) (p : Process)
  : Process :=
  fold_left (fun q x => exec (f x) q) xs p.

Definition step (p : Process) (a : Action) : Process :=
  exec (act a) p.

Inductive reachable : Process -> Prop :=
| reachable_start : reachable process_start
| reachable_step (p : Process) (a : Action) :
    reachable p -> reachable (step p a).

(* ----------------------------------------------------------------- *)
(** *** Reading a request *)

(** A request carries a flag when all of the flag's bits are set in it. *)
Definition has_flag (es flag : EXECUTION_STATE) : bool :=
  Z.land es flag =? flag.

(** A request asks for sleep prevention when it sets some bit of
    [ES_DISPLAY_REQUIRED] (keep the display on) or of
    [ES_SYSTEM_REQUIRED] (keep the system awake). *)
Definition requests_sleep_prevention (es : EXECUTION_STATE) : bool :=
  negb (Z.land es ES_DISPLAY_REQUIRED =? 0)
  || negb (Z.land es ES_SYSTEM_REQUIRED =? 0).

(** What the plugin needs of the header: the two requirement flags are
    not empty and share no bit with [ES_CONTINUOUS]. *)
Definition flags_well_formed : Prop :=
  ES_DISPLAY_REQUIRED <> 0 /\
  ES_SYSTEM_REQUIRED <> 0 /\
  Z.land ES_CONTINUOUS ES_DISPLAY_REQUIRED = 0 /\
  Z.land ES_CONTINUOUS ES_SYSTEM_REQUIRED = 0.

(** The flag agrees with the most recent request: it is set exactly when
    there is one and it asks for sleep prevention. *)
Definition flag_reflects_last_request (p : Process) : Prop :=
  is_wakelock_enabled (statics p) =
  match last_request (history p) with
  | Some es => requests_sleep_prevention es
  | None => false
  end.

(** A computation is _tame_ in a state when it either makes no request
    and keeps the flag, or makes exactly one request and leaves the flag
    saying whether that request asks for sleep prevention. *)
Definition tame (m : M unit) (g : Globals) : Prop :=
  (os_calls (events_of m g) = []
   /\ is_wakelock_enabled (state_after m g) = is_wakelock_enabled g)
  \/
  (exists es, os_calls (events_of m g) = [es]
   /\ is_wakelock_enabled (state_after m g) = requests_sleep_prevention es).

End Plugin.

(* ================================================================= *)
(** ** Registration with the host *)

(** What [SetMethodCallHandler] takes: the handler of a channel. *)
Definition MethodCallHandler : Type := MethodCall EncodableValue -> M unit.

(** [flutter::PluginRegistrarWindows], as far as the plugin touches it:
    the handlers its messenger holds, at most one per channel name, and
    the plugins the registrar owns.  [flutter::Plugin] has a virtual
    destructor and nothing else, so an owned plugin is kept as what its
    destructor does. *)
Record PluginRegistrar : Type := {
  channel_handlers : list (string * MethodCallHandler);
  owned_plugins : list (M unit)
}.


(** [channel->SetMethodCallHandler(handler)] on a channel of the given
    name: the handler takes the place of any earlier one of that name. *)
Definition SetMethodCallHandler (name : string) (handler : MethodCallHandler)
    (registrar : PluginRegistrar) : PluginRegistrar :=
  {| channel_handlers :=
       (name, handler)
       :: filter (fun entry => negb (String.eqb (fst entry) name))
                 (channel_handlers registrar);
     owned_plugins := owned_plugins registrar |}.

(** [registrar->AddPlugin(std::move(plugin))]. *)
Definition AddPlugin (plugin_destructor : M unit) (registrar : PluginRegistrar)
  : PluginRegistrar :=
  {| channel_handlers := channel_handlers registrar;
     owned_plugins := owned_plugins registrar ++ [plugin_destructor] |}.


(** One computation after the other. *)
Fixpoint run_all (ms : list (M unit)) : M unit :=
  match ms with
  | [] => ret tt
  | m :: rest => m ;; run_all rest
  end.

(** The registrar goes away and destroys the plugins it owns. *)
Definition destroy_plugins (registrar : PluginRegistrar) : M unit :=
  run_all (owned_plugins registrar).

Section Host.

Context {flags : ExecutionStateFlags}.

(** [WakelockPlugin::RegisterWithRegistrar] (lines 20-35).  The channel
    object is a local of the function; what stays behind is the handler
    under the channel's name and the plugin in the registrar's keeping.
    The handler is the lambda of lines 30-32, which passes the call on
    to [HandleMethodCall]. *)
Definition RegisterWithRegistrar (registrar : PluginRegistrar)
  : M PluginRegistrar :=
  let channel := "com.alnitak/wakelock"%string in
  WakelockPlugin_constructor ;;
  let with_handler :=
    SetMethodCallHandler channel (fun call => HandleMethodCall call) registrar in
  ret (AddPlugin WakelockPlugin_destructor with_handler).

(** The operation an action comes down to, if any. *)
Definition operation_of (a : Action) : option Operation :=
  match a with
  | Construct => None
  | Handle method_call =>
      if String.eqb (method_name method_call) "enableWindows" then Some Enable
      else if String.eqb (method_name method_call) "disableWindows"
           then Some Disable
           else None
  | Destroy => Some Disable
  end.

Fixpoint operations_of (acts : list Action) : list Operation :=
  match acts with
  | [] => []
  | a :: rest =>
      match operation_of a with
      | Some op => op :: operations_of rest
      | None => operations_of rest
      end
  end.

(** The first [n] requests of the sequence enable, release, enable,
    release, ... *)
Definition alternating_requests (n : nat) : list EXECUTION_STATE :=
  map (fun i => if Nat.even i then request_for Enable else request_for Disable)
      (seq 0 n).

End Host.

(** Two processes that agree on what the operations can see. *)
Definition same_wakelock_view (p q : Process) : Prop :=
  statics p = statics q
  /\ os_calls (history p) = os_calls (history q)
  /\ entered (history p) = entered (history q).

(** What a computation returns. *)
Definition value_of {A : Type} (m : M A) (g : Globals) : A :=
  fst (fst (m g)).

(** A registrar that holds nothing yet. *)
Definition empty_registrar : PluginRegistrar :=
  {| channel_handlers := []; owned_plugins := [] |}.

(* ================================================================= *)
(** ** Concrete inputs *)

(** The same method name, once without and once with arguments. *)
Definition enable_without_arguments : MethodCall EncodableValue :=
  {| method_name := "enableWindows"; arguments := None |}.

Definition enable_with_arguments : MethodCall EncodableValue :=
  {| method_name := "enableWindows";
     arguments := Some (EncodableList [EncodableInt32 7; EncodableNull]) |}.

(** The registrar after the plugin was registered with it twice. *)
Definition registered_twice : PluginRegistrar :=
  value_of
    (RegisterWithRegistrar (flags := winnt_h)
       (value_of (RegisterWithRegistrar (flags := winnt_h) empty_registrar)
                 released))
    released.

(** A process in which the plugin was registered, enabled and then
    destroyed. *)
Definition enabled_then_destroyed : Process :=
  step (flags := winnt_h)
    (step (flags := winnt_h)
       (step (flags := winnt_h) process_start Construct)
       (Handle enable_without_arguments))
    Destroy.

(* ================================================================= *)
(** ** Auxiliary facts *)

(** Closed goals about concrete values are settled by evaluation. *)
Ltac by_computation :=
  vm_compute; repeat split; (reflexivity || discriminate).

(** *** [std::string::compare] *)

Lemma string_compare_refl (s : string) : String.compare s s = Eq.
Proof.
  pose proof (String.compare_antisym s s) as H.
  destruct (String.compare s s); simpl in H; congruence.
Qed.

Lemma std_string_compare_zero (a b : string) :
  (std_string_compare a b =? 0) = true <-> a = b.
Proof.
  unfold std_string_compare. split.
  - destruct (String.compare a b) eqn:E; simpl; try discriminate.
    intros _. now apply String.compare_eq_iff.
  - intros ->. now rewrite string_compare_refl.
Qed.

Lemma std_string_compare_nonzero (a b : string) :
  (std_string_compare a b =? 0) = false <-> a <> b.
Proof.
  rewrite <- std_string_compare_zero.
  destruct (std_string_compare a b =? 0); split; congruence.
Qed.

(** *** Bits of a disjunction *)

Lemma land_lor3_first (c d s : Z) : Z.land (Z.lor (Z.lor c d) s) c = c.
Proof.
  apply Z.bits_inj'. intros n _.
  rewrite Z.land_spec, !Z.lor_spec.
  destruct (Z.testbit c n), (Z.testbit d n), (Z.testbit s n); reflexivity.
Qed.

Lemma land_lor3_second (c d s : Z) : Z.land (Z.lor (Z.lor c d) s) d = d.
Proof.
  apply Z.bits_inj'. intros n _.
  rewrite Z.land_spec, !Z.lor_spec.
  destruct (Z.testbit c n), (Z.testbit d n), (Z.testbit s n); reflexivity.
Qed.

Lemma land_lor3_third (c d s : Z) : Z.land (Z.lor (Z.lor c d) s) s = s.
Proof.
  apply Z.bits_inj'. intros n _.
  rewrite Z.land_spec, !Z.lor_spec.
  destruct (Z.testbit c n), (Z.testbit d n), (Z.testbit s n); reflexivity.
Qed.

(** *** Observations distribute over concatenation *)

Lemma os_calls_app (xs ys : list Event) :
  os_calls (xs ++ ys) = os_calls xs ++ os_calls ys.
Proof.
  induction xs as [|[op|es|b|r] xs IH]; simpl; now rewrite ?IH.
Qed.

Lemma entered_app (xs ys : list Event) :
  entered (xs ++ ys) = entered xs ++ entered ys.
Proof.
  induction xs as [|[op|es|b|r] xs IH]; simpl; now rewrite ?IH.
Qed.

Lemma replies_app (xs ys : list Event) :
  replies (xs ++ ys) = replies xs ++ replies ys.
Proof.
  induction xs as [|[op|es|b|r] xs IH]; simpl; now rewrite ?IH.
Qed.

Lemma last_request_no_calls (xs ys : list Event) :
  os_calls ys = [] -> last_request (xs ++ ys) = last_request xs.
Proof.
  unfold last_request. intros H.
  now rewrite os_calls_app, H, app_nil_r.
Qed.

Lemma last_request_one_call (xs ys : list Event) (es : EXECUTION_STATE) :
  os_calls ys = [es] -> last_request (xs ++ ys) = Some es.
Proof.
  unfold last_request. intros H.
  rewrite os_calls_app, H, map_app. simpl. apply last_last.
Qed.

(** *** The monad *)

Lemma state_after_bind {A B : Type} (m : M A) (k : A -> M B) (g : Globals) :
  state_after (bind m k) g = state_after (k (fst (fst (m g)))) (state_after m g).
Proof.
  unfold state_after, bind.
  destruct (m g) as [[a g1] out1]; simpl.
  now destruct (k a g1) as [[b g2] out2].
Qed.

Lemma events_of_bind {A B : Type} (m : M A) (k : A -> M B) (g : Globals) :
  events_of (bind m k) g
  = events_of m g ++ events_of (k (fst (fst (m g)))) (state_after m g).
Proof.
  unfold events_of, state_after, bind.
  destruct (m g) as [[a g1] out1]; simpl.
  now destruct (k a g1) as [[b g2] out2].
Qed.

Section Properties.

Context {flags : ExecutionStateFlags}.

(** The request [EnableWakelock] makes. *)
Local Abbreviation enable_request :=
  (Z.lor (Z.lor ES_CONTINUOUS ES_DISPLAY_REQUIRED) ES_SYSTEM_REQUIRED).

(** *** The two operations, case by case *)

Lemma EnableWakelock_released (g : Globals) :
  is_wakelock_enabled g = false ->
  EnableWakelock g
  = (tt, {| is_wakelock_enabled := true |},
     [Entered Enable; OsCall enable_request; Stored true]).
Proof. destruct g as [[|]]; [discriminate | reflexivity]. Qed.

Lemma EnableWakelock_held (g : Globals) :
  is_wakelock_enabled g = true ->
  EnableWakelock g = (tt, g, [Entered Enable]).
Proof. destruct g as [[|]]; [reflexivity | discriminate]. Qed.

Lemma DisableWakelock_held (g : Globals) :
  is_wakelock_enabled g = true ->
  DisableWakelock g
  = (tt, {| is_wakelock_enabled := false |},
     [Entered Disable; OsCall ES_CONTINUOUS; Stored false]).
Proof. destruct g as [[|]]; [reflexivity | discriminate]. Qed.

Lemma DisableWakelock_released (g : Globals) :
  is_wakelock_enabled g = false ->
  DisableWakelock g = (tt, g, [Entered Disable]).
Proof. destruct g as [[|]]; [discriminate | reflexivity]. Qed.

Lemma EnableWakelock_sets (g : Globals) :
  is_wakelock_enabled (state_after EnableWakelock g) = true.
Proof. destruct g as [[|]]; reflexivity. Qed.

Lemma DisableWakelock_clears (g : Globals) :
  is_wakelock_enabled (state_after DisableWakelock g) = false.
Proof. destruct g as [[|]]; reflexivity. Qed.

(** *** The handler, case by case *)

Lemma HandleMethodCall_enable (mc : MethodCall EncodableValue) :
  method_name mc = "enableWindows"%string ->
  HandleMethodCall mc = (EnableWakelock ;; result_Success (EncodableBool true)).
Proof.
  intros H. unfold HandleMethodCall. now rewrite H.
Qed.

Lemma HandleMethodCall_disable (mc : MethodCall EncodableValue) :
  method_name mc = "disableWindows"%string ->
  HandleMethodCall mc = (DisableWakelock ;; result_Success (EncodableBool true)).
Proof.
  intros H. unfold HandleMethodCall. now rewrite H.
Qed.

Lemma HandleMethodCall_other (mc : MethodCall EncodableValue) :
  method_name mc <> "enableWindows"%string ->
  method_name mc <> "disableWindows"%string ->
  HandleMethodCall mc = result_NotImplemented.
Proof.
  intros H1 H2. unfold HandleMethodCall.
  apply std_string_compare_nonzero in H1, H2.
  now rewrite H1, H2.
Qed.

(** *** Requests under well-formed flags *)

Lemma enable_request_prevents_sleep :
  flags_well_formed -> requests_sleep_prevention enable_request = true.
Proof.
  intros (Hd & _). unfold requests_sleep_prevention.
  rewrite land_lor3_second.
  apply Z.eqb_neq in Hd. now rewrite Hd.
Qed.

Lemma continuous_allows_sleep :
  flags_well_formed -> requests_sleep_prevention ES_CONTINUOUS = false.
Proof.
  intros (_ & _ & Hd & Hs). unfold requests_sleep_prevention.
  now rewrite Hd, Hs.
Qed.

(** *** A reply after an operation *)

Lemma state_after_then_reply (m : M unit) (r : MethodResultCall EncodableValue)
    (g : Globals) :
  state_after (m ;; emit (Replied r)) g = state_after m g.
Proof. now rewrite state_after_bind. Qed.

Lemma events_of_then_reply (m : M unit) (r : MethodResultCall EncodableValue)
    (g : Globals) :
  events_of (m ;; emit (Replied r)) g = events_of m g ++ [Replied r].
Proof. now rewrite events_of_bind. Qed.

(* ================================================================= *)
(** ** The two operations *)

(** C2.  [EnableWakelock]: when the flag is false it makes exactly one
    operating-system call, whose request carries the continuous, the
    display-required and the system-required flag, then assigns true to
    the flag, which is true afterwards; when the flag is already true it
    makes no call, assigns nothing and leaves the state as it was. *)
Theorem EnableWakelock_spec (g : Globals) :
  (is_wakelock_enabled g = false ->
     events_of EnableWakelock g
       = [Entered Enable; OsCall enable_request; Stored true]
     /\ os_calls (events_of EnableWakelock g) = [enable_request]
     /\ has_flag enable_request ES_CONTINUOUS = true
     /\ has_flag enable_request ES_DISPLAY_REQUIRED = true
     /\ has_flag enable_request ES_SYSTEM_REQUIRED = true
     /\ is_wakelock_enabled (state_after EnableWakelock g) = true)
  /\
  (is_wakelock_enabled g = true ->
     events_of EnableWakelock g = [Entered Enable]
     /\ os_calls (events_of EnableWakelock g) = []
     /\ state_after EnableWakelock g = g).
Proof.
  split; intros H.
  - unfold events_of, state_after. rewrite (EnableWakelock_released g H).
    unfold has_flag.
    rewrite land_lor3_first, land_lor3_second, land_lor3_third, !Z.eqb_refl.
    simpl. repeat split; reflexivity.
  - unfold events_of, state_after. rewrite (EnableWakelock_held g H).
    repeat split; reflexivity.
Qed.

(** C3.  [DisableWakelock]: when the flag is true it makes exactly one
    operating-system call, whose request is the bare continuous state,
    with neither the display-required nor the system-required flag, then
    assigns false to the flag, which is false afterwards; when the flag
    is already false it makes no call, assigns nothing and leaves the
    state as it was. *)
Theorem DisableWakelock_spec (g : Globals) :
  flags_well_formed ->
  (is_wakelock_enabled g = true ->
     events_of DisableWakelock g
       = [Entered Disable; OsCall ES_CONTINUOUS; Stored false]
     /\ os_calls (events_of DisableWakelock g) = [ES_CONTINUOUS]
     /\ has_flag ES_CONTINUOUS ES_DISPLAY_REQUIRED = false
     /\ has_flag ES_CONTINUOUS ES_SYSTEM_REQUIRED = false
     /\ requests_sleep_prevention ES_CONTINUOUS = false
     /\ is_wakelock_enabled (state_after DisableWakelock g) = false)
  /\
  (is_wakelock_enabled g = false ->
     events_of DisableWakelock g = [Entered Disable]
     /\ os_calls (events_of DisableWakelock g) = []
     /\ state_after DisableWakelock g = g).
Proof.
  intros Hwf. split; intros H.
  - unfold events_of, state_after. rewrite (DisableWakelock_held g H).
    pose proof (continuous_allows_sleep Hwf) as Hsleep.
    destruct Hwf as (Hd & Hs & Hcd & Hcs).
    repeat split; try reflexivity; try assumption.
    + unfold has_flag. rewrite Hcd. apply Z.eqb_neq. congruence.
    + unfold has_flag. rewrite Hcs. apply Z.eqb_neq. congruence.
  - unfold events_of, state_after. rewrite (DisableWakelock_released g H).
    repeat split; reflexivity.
Qed.

(* ================================================================= *)
(** ** The handler *)

(** C4.  [HandleMethodCall] dispatches on the method name alone.  On
    ["enableWindows"] it runs [EnableWakelock] and then replies success
    with [true]; on ["disableWindows"] it runs [DisableWakelock] and then
    replies success with [true]; on any other name, in any state, its
    only effect is the reply "not implemented": neither operation is
    entered. *)
Theorem HandleMethodCall_dispatch (mc : MethodCall EncodableValue)
    (g : Globals) :
  (method_name mc = "enableWindows"%string ->
     state_after (HandleMethodCall mc) g = state_after EnableWakelock g
     /\ events_of (HandleMethodCall mc) g
         = events_of EnableWakelock g
           ++ [Replied (Success (Some (EncodableBool true)))]
     /\ entered (events_of (HandleMethodCall mc) g) = [Enable]
     /\ replies (events_of (HandleMethodCall mc) g)
         = [Success (Some (EncodableBool true))])
  /\
  (method_name mc = "disableWindows"%string ->
     state_after (HandleMethodCall mc) g = state_after DisableWakelock g
     /\ events_of (HandleMethodCall mc) g
         = events_of DisableWakelock g
           ++ [Replied (Success (Some (EncodableBool true)))]
     /\ entered (events_of (HandleMethodCall mc) g) = [Disable]
     /\ replies (events_of (HandleMethodCall mc) g)
         = [Success (Some (EncodableBool true))])
  /\
  (method_name mc <> "enableWindows"%string ->
   method_name mc <> "disableWindows"%string ->
     HandleMethodCall mc g = (tt, g, [Replied NotImplemented])
     /\ entered (events_of (HandleMethodCall mc) g) = []
     /\ replies (events_of (HandleMethodCall mc) g) = [NotImplemented]).
Proof.
  split; [|split].
  - intros H. rewrite (HandleMethodCall_enable mc H).
    unfold result_Success.
    rewrite state_after_then_reply, events_of_then_reply.
    destruct g as [[|]]; repeat split; reflexivity.
  - intros H. rewrite (HandleMethodCall_disable mc H).
    unfold result_Success.
    rewrite state_after_then_reply, events_of_then_reply.
    destruct g as [[|]]; repeat split; reflexivity.
  - intros H1 H2. unfold events_of.
    rewrite (HandleMethodCall_other mc H1 H2).
    repeat split; reflexivity.
Qed.

(** C7.  In every state, a request whose method name is neither
    ["enableWindows"] nor ["disableWindows"] (for instance ["foo"]) is
    answered "not implemented", leaves the flag as it was and makes no
    operating-system call. *)
Theorem unknown_method_frame (mc : MethodCall EncodableValue) (g : Globals) :
  method_name mc <> "enableWindows"%string ->
  method_name mc <> "disableWindows"%string ->
  replies (events_of (HandleMethodCall mc) g) = [NotImplemented]
  /\ state_after (HandleMethodCall mc) g = g
  /\ is_wakelock_enabled (state_after (HandleMethodCall mc) g)
      = is_wakelock_enabled g
  /\ os_calls (events_of (HandleMethodCall mc) g) = [].
Proof.
  intros H1 H2. unfold events_of, state_after.
  rewrite (HandleMethodCall_other mc H1 H2).
  repeat split; reflexivity.
Qed.

(** C8.  [HandleMethodCall] never looks at the arguments: two calls with
    the same method name, made in the same state, give the same reply,
    the same effects and the same resulting state, whatever their
    arguments are and whether or not they are present. *)
Theorem HandleMethodCall_ignores_arguments
    (mc1 mc2 : MethodCall EncodableValue) (g : Globals) :
  method_name mc1 = method_name mc2 ->
  HandleMethodCall mc1 g = HandleMethodCall mc2 g
  /\ replies (events_of (HandleMethodCall mc1) g)
      = replies (events_of (HandleMethodCall mc2) g)
  /\ state_after (HandleMethodCall mc1) g
      = state_after (HandleMethodCall mc2) g.
Proof.
  intros H.
  assert (E : HandleMethodCall mc1 = HandleMethodCall mc2).
  { unfold HandleMethodCall. now rewrite H. }
  now rewrite E.
Qed.

(* ================================================================= *)
(** ** Processes *)

Lemma exec_all_snoc {X : Type} (f : X -> M unit) (xs : list X) (x : X)
    (p : Process) :
  exec_all f (xs ++ [x]) p = exec (f x) (exec_all f xs p).
Proof. unfold exec_all. now rewrite fold_left_app. Qed.

Lemma reachable_exec_all (acts : list Action) :
  reachable (exec_all act acts process_start).
Proof.
  induction acts as [|a acts IH] using rev_ind.
  - apply reachable_start.
  - rewrite exec_all_snoc. now apply reachable_step.
Qed.

Lemma tame_exec (m : M unit) (p : Process) :
  tame m (statics p) ->
  flag_reflects_last_request p ->
  flag_reflects_last_request (exec m p).
Proof.
  unfold flag_reflects_last_request, exec. simpl.
  intros [[Hcalls Hflag] | (es & Hcalls & Hflag)] Hp.
  - now rewrite (last_request_no_calls _ _ Hcalls), Hflag.
  - now rewrite (last_request_one_call _ _ _ Hcalls), Hflag.
Qed.

Lemma tame_EnableWakelock (g : Globals) :
  flags_well_formed -> tame EnableWakelock g.
Proof.
  intros Hwf. unfold tame, events_of, state_after.
  destruct (is_wakelock_enabled g) eqn:E.
  - left. now rewrite (EnableWakelock_held g E).
  - right. exists enable_request.
    rewrite (EnableWakelock_released g E). simpl.
    now rewrite (enable_request_prevents_sleep Hwf).
Qed.

Lemma tame_DisableWakelock (g : Globals) :
  flags_well_formed -> tame DisableWakelock g.
Proof.
  intros Hwf. unfold tame, events_of, state_after.
  destruct (is_wakelock_enabled g) eqn:E.
  - right. exists ES_CONTINUOUS.
    rewrite (DisableWakelock_held g E). simpl.
    now rewrite (continuous_allows_sleep Hwf).
  - left. now rewrite (DisableWakelock_released g E).
Qed.

Lemma tame_then_reply (m : M unit) (r : MethodResultCall EncodableValue)
    (g : Globals) :
  tame m g -> tame (m ;; emit (Replied r)) g.
Proof.
  unfold tame.
  rewrite state_after_then_reply, events_of_then_reply, os_calls_app.
  simpl. now rewrite app_nil_r.
Qed.

Lemma tame_act (a : Action) (g : Globals) :
  flags_well_formed -> tame (act a) g.
Proof.
  intros Hwf. destruct a as [|mc|]; simpl.
  - left. split; reflexivity.
  - destruct (string_dec (method_name mc) "enableWindows") as [He|He].
    { rewrite (HandleMethodCall_enable mc He).
      apply tame_then_reply, tame_EnableWakelock, Hwf. }
    destruct (string_dec (method_name mc) "disableWindows") as [Hd|Hd].
    { rewrite (HandleMethodCall_disable mc Hd).
      apply tame_then_reply, tame_DisableWakelock, Hwf. }
    rewrite (HandleMethodCall_other mc He Hd).
    left. split; reflexivity.
  - apply tame_DisableWakelock, Hwf.
Qed.

Lemma reachable_flag_reflects (p : Process) :
  flags_well_formed -> reachable p -> flag_reflects_last_request p.
Proof.
  intros Hwf Hp. induction Hp as [|p a Hp IH].
  - reflexivity.
  - apply tame_exec; [apply tame_act, Hwf | exact IH].
Qed.

(** Which requests an action can make. *)
Lemma os_calls_act (a : Action) (g : Globals) :
  Forall (fun es => es = enable_request \/ es = ES_CONTINUOUS)
         (os_calls (events_of (act a) g)).
Proof.
  destruct a as [|mc|]; simpl.
  - constructor.
  - destruct (string_dec (method_name mc) "enableWindows") as [He|He].
    { rewrite (HandleMethodCall_enable mc He). unfold result_Success.
      rewrite events_of_then_reply, os_calls_app. simpl. rewrite app_nil_r.
      destruct g as [[|]]; simpl; auto using Forall_cons, Forall_nil. }
    destruct (string_dec (method_name mc) "disableWindows") as [Hd|Hd].
    { rewrite (HandleMethodCall_disable mc Hd). unfold result_Success.
      rewrite events_of_then_reply, os_calls_app. simpl. rewrite app_nil_r.
      destruct g as [[|]]; simpl; auto using Forall_cons, Forall_nil. }
    rewrite (HandleMethodCall_other mc He Hd). constructor.
  - destruct g as [[|]]; simpl; auto using Forall_cons, Forall_nil.
Qed.

(** An action leaves the state alone, or enters exactly one of the two
    operations and has that operation's effect on the state. *)
Lemma act_state (a : Action) (g : Globals) :
  state_after (act a) g = g
  \/ exists op : Operation,
       entered (events_of (act a) g) = [op]
       /\ state_after (act a) g = state_after (perform op) g.
Proof.
  destruct a as [|mc|]; simpl.
  - now left.
  - destruct (string_dec (method_name mc) "enableWindows") as [He|He].
    { right. exists Enable.
      rewrite (HandleMethodCall_enable mc He). unfold result_Success.
      rewrite state_after_then_reply, events_of_then_reply, entered_app.
      destruct g as [[|]]; split; reflexivity. }
    destruct (string_dec (method_name mc) "disableWindows") as [Hd|Hd].
    { right. exists Disable.
      rewrite (HandleMethodCall_disable mc Hd). unfold result_Success.
      rewrite state_after_then_reply, events_of_then_reply, entered_app.
      destruct g as [[|]]; split; reflexivity. }
    left. now rewrite (HandleMethodCall_other mc He Hd).
  - right. exists Disable. destruct g as [[|]]; split; reflexivity.
Qed.

(** Sequences of direct calls, summarised. *)
Lemma perform_flag (c : Operation) (g : Globals) :
  is_wakelock_enabled (state_after (perform c) g) = is_enable c.
Proof.
  destruct c; simpl;
    [apply EnableWakelock_sets | apply DisableWakelock_clears].
Qed.

Lemma calls_summary (cs : list Operation) :
  (is_wakelock_enabled (statics (exec_all perform cs process_start)) = true ->
   existsb is_enable cs = true)
  /\
  last_request (history (exec_all perform cs process_start))
  = if is_wakelock_enabled (statics (exec_all perform cs process_start))
    then Some enable_request
    else if existsb is_enable cs then Some ES_CONTINUOUS else None.
Proof.
  induction cs as [|c cs [IHa IHb]] using rev_ind.
  - split; [discriminate | reflexivity].
  - rewrite exec_all_snoc, existsb_app.
    remember (exec_all perform cs process_start) as p eqn:Ep.
    unfold exec, events_of, state_after. simpl.
    destruct c, (is_wakelock_enabled (statics p)) eqn:E; simpl.
    + rewrite (EnableWakelock_held _ E). simpl.
      rewrite E, orb_true_r.
      split; [reflexivity|].
      now rewrite (last_request_no_calls (history p) [Entered Enable]).
    + rewrite (EnableWakelock_released _ E). simpl.
      rewrite orb_true_r.
      split; [reflexivity | now apply last_request_one_call].
    + rewrite (DisableWakelock_held _ E). simpl.
      rewrite (IHa eq_refl). simpl.
      split; [discriminate | now apply last_request_one_call].
    + rewrite (DisableWakelock_released _ E). simpl.
      rewrite E, orb_false_r.
      split; [discriminate|].
      now rewrite (last_request_no_calls (history p) [Entered Disable]).
Qed.

(* ================================================================= *)
(** ** Teardown *)

(** C5.  The destructor is [DisableWakelock], whatever the state: it
    always enters it and always leaves the flag false.  Destroyed while
    the flag is true, it makes exactly one operating-system call, the
    continuous-only request.  Hence, in any reachable process, once an
    instance has been destroyed the most recent request, if there is
    one, does not ask for sleep prevention. *)
Theorem destructor_releases_wakelock (g : Globals) :
  WakelockPlugin_destructor g = DisableWakelock g
  /\ entered (events_of WakelockPlugin_destructor g) = [Disable]
  /\ is_wakelock_enabled (state_after WakelockPlugin_destructor g) = false
  /\ (is_wakelock_enabled g = true ->
      os_calls (events_of WakelockPlugin_destructor g) = [ES_CONTINUOUS])
  /\ (flags_well_formed ->
      forall p : Process, reachable p ->
        match last_request (history (step p Destroy)) with
        | Some es => requests_sleep_prevention es = false
        | None => True
        end).
Proof.
  repeat split.
  - destruct g as [[|]]; reflexivity.
  - apply DisableWakelock_clears.
  - intros H. unfold WakelockPlugin_destructor, events_of.
    now rewrite (DisableWakelock_held g H).
  - intros Hwf p Hp.
    pose proof (reachable_flag_reflects _ Hwf (reachable_step p Destroy Hp))
      as Hrefl.
    unfold flag_reflects_last_request in Hrefl.
    assert (Hoff : is_wakelock_enabled (statics (step p Destroy)) = false)
      by apply DisableWakelock_clears.
    rewrite Hoff in Hrefl.
    destruct (last_request (history (step p Destroy))); [now symmetry | exact I].
Qed.

(** C9.  Destroying an instance while the flag is false makes no
    operating-system call and leaves the flag false: the requests the
    process has made are the same before and after. *)
Theorem destructor_when_released (p : Process) :
  is_wakelock_enabled (statics p) = false ->
  os_calls (events_of WakelockPlugin_destructor (statics p)) = []
  /\ statics (step p Destroy) = statics p
  /\ is_wakelock_enabled (statics (step p Destroy)) = false
  /\ os_calls (history (step p Destroy)) = os_calls (history p)
  /\ last_request (history (step p Destroy)) = last_request (history p).
Proof.
  intros H.
  assert (Hcalls : os_calls (events_of WakelockPlugin_destructor (statics p)) = []).
  { unfold WakelockPlugin_destructor, events_of.
    now rewrite (DisableWakelock_released _ H). }
  assert (Hsame : statics (step p Destroy) = statics p).
  { unfold step, exec, act, WakelockPlugin_destructor, state_after. simpl.
    now rewrite (DisableWakelock_released _ H). }
  repeat split.
  - exact Hcalls.
  - exact Hsame.
  - now rewrite Hsame.
  - unfold step, exec. simpl. now rewrite os_calls_app, Hcalls, app_nil_r.
  - unfold step, exec. simpl. now apply last_request_no_calls.
Qed.

(* ================================================================= *)
(** ** Invariants of the process *)

(** C6.  The state is one boolean and nothing else; it is false when the
    process starts; an action either leaves it alone or enters exactly
    one of [EnableWakelock] and [DisableWakelock] and changes it as that
    operation does (the destructor enters the latter); and in every
    reachable process it is true exactly when there is a most recent
    operating-system request and that request asks for sleep
    prevention. *)
Theorem wakelock_state_invariant :
  (forall g1 g2 : Globals,
     is_wakelock_enabled g1 = is_wakelock_enabled g2 -> g1 = g2)
  /\ is_wakelock_enabled (statics process_start) = false
  /\ (forall (a : Action) (g : Globals),
        state_after (act a) g = g
        \/ exists op : Operation,
             entered (events_of (act a) g) = [op]
             /\ state_after (act a) g = state_after (perform op) g)
  /\ (forall g : Globals, entered (events_of (act Destroy) g) = [Disable])
  /\ (flags_well_formed ->
      forall p : Process, reachable p -> flag_reflects_last_request p).
Proof.
  split; [|split; [|split; [|split]]].
  - intros [b1] [b2]. simpl. now intros ->.
  - reflexivity.
  - apply act_state.
  - intros [[|]]; reflexivity.
  - intros Hwf p Hp. now apply reachable_flag_reflects.
Qed.

(** C10.  Every operating-system request a reachable process has made
    is one of two: continuous + display-required + system-required, or
    continuous alone; so every one of them carries [ES_CONTINUOUS]. *)
Theorem every_request_is_continuous (p : Process) :
  reachable p ->
  Forall (fun es =>
            (es = enable_request \/ es = ES_CONTINUOUS)
            /\ has_flag es ES_CONTINUOUS = true)
         (os_calls (history p)).
Proof.
  intros Hp. induction Hp as [|p a Hp IH].
  - constructor.
  - unfold step, exec. simpl. rewrite os_calls_app.
    apply Forall_app. split; [exact IH|].
    eapply Forall_impl; [|apply os_calls_act].
    intros es [-> | ->]; (split; [auto|]); unfold has_flag.
    + now rewrite land_lor3_first, Z.eqb_refl.
    + now rewrite Z.land_diag, Z.eqb_refl.
Qed.

(* ================================================================= *)
(** ** Sequences of calls *)

(** C1, as the code has it.  Take any sequence of [EnableWakelock] and
    [DisableWakelock] calls made from the start of the process.  If the
    sequence contains an [EnableWakelock], the most recent
    operating-system request is the one that belongs to the last call of
    the sequence; if it contains none, no request has been made at all.
    And the second of two consecutive calls of the same operation makes
    no request, so that the pair makes as many as the first alone, at
    most one. *)
Theorem last_request_follows_last_call (cs : list Operation) (c : Operation) :
  (existsb is_enable (cs ++ [c]) = true ->
     last_request (history (exec_all perform (cs ++ [c]) process_start))
     = Some (request_for c))
  /\
  (existsb is_enable (cs ++ [c]) = false ->
     os_calls (history (exec_all perform (cs ++ [c]) process_start)) = [])
  /\
  (forall (op : Operation) (g : Globals),
     os_calls (events_of (perform op) (state_after (perform op) g)) = []
     /\ os_calls (events_of (perform op ;; perform op) g)
         = os_calls (events_of (perform op) g)
     /\ (List.length (os_calls (events_of (perform op ;; perform op) g)) <= 1)%nat).
Proof.
  split; [|split].
  - intros Hex.
    destruct (calls_summary (cs ++ [c])) as [_ Hlast].
    rewrite Hlast, Hex.
    rewrite exec_all_snoc. unfold exec. simpl. rewrite perform_flag.
    now destruct c.
  - intros Hex.
    destruct (calls_summary (cs ++ [c])) as [Hon Hlast].
    rewrite Hex in Hon, Hlast.
    destruct (is_wakelock_enabled
                (statics (exec_all perform (cs ++ [c]) process_start))) eqn:E.
    + now specialize (Hon eq_refl).
    + unfold last_request in Hlast.
      destruct (os_calls (history (exec_all perform (cs ++ [c]) process_start)))
        as [|es rest] eqn:Ecalls; [reflexivity|].
      exfalso. revert Hlast. clear.
      generalize es. induction rest as [|x rest IH]; intros y; simpl.
      * discriminate.
      * apply IH.
  - intros op g. rewrite events_of_bind, os_calls_app.
    destruct op, g as [[|]]; simpl; repeat split; auto.
Qed.

End Properties.

(* ================================================================= *)
(** ** The properties at the Windows SDK's values *)

Section WindowsSDK.

#[local] Existing Instance winnt_h.

Lemma winnt_h_well_formed : flags_well_formed.
Proof. by_computation. Qed.

(** The scenarios of the specification, run. *)

Example fresh_enable_request :
  HandleMethodCall {| method_name := "enableWindows"; arguments := None |}
                   released
  = (tt, held,
     [Entered Enable; OsCall 0x80000003; Stored true;
      Replied (Success (Some (EncodableBool true)))]).
Proof. reflexivity. Qed.

Example held_enable_request :
  HandleMethodCall {| method_name := "enableWindows"; arguments := None |}
                   held
  = (tt, held,
     [Entered Enable;
      Replied (Success (Some (EncodableBool true)))]).
Proof. reflexivity. Qed.

Example held_disable_request :
  HandleMethodCall {| method_name := "disableWindows"; arguments := None |}
                   held
  = (tt, released,
     [Entered Disable; OsCall 0x80000000; Stored false;
      Replied (Success (Some (EncodableBool true)))]).
Proof. reflexivity. Qed.

Example unknown_request :
  HandleMethodCall {| method_name := "foo"; arguments := None |} held
  = (tt, held, [Replied NotImplemented]).
Proof. reflexivity. Qed.

Example destroyed_while_held :
  WakelockPlugin_destructor held
  = (tt, released, [Entered Disable; OsCall 0x80000000; Stored false]).
Proof. reflexivity. Qed.

Lemma enabled_then_destroyed_reachable : reachable enabled_then_destroyed.
Proof. unfold enabled_then_destroyed. repeat apply reachable_step. apply reachable_start. Qed.

(** *** Instances of the theorems *)

Lemma EnableWakelock_spec_witness :
  is_wakelock_enabled released = false
  /\ (events_of EnableWakelock released
       = [Entered Enable; OsCall 0x80000003; Stored true]
      /\ os_calls (events_of EnableWakelock released) = [0x80000003]
      /\ has_flag 0x80000003 0x80000000 = true
      /\ has_flag 0x80000003 0x00000002 = true
      /\ has_flag 0x80000003 0x00000001 = true
      /\ is_wakelock_enabled (state_after EnableWakelock released) = true).
Proof.
  split; [reflexivity|].
  refine (proj1 (EnableWakelock_spec released) _). reflexivity.
Defined.

Lemma DisableWakelock_spec_witness :
  flags_well_formed
  /\ is_wakelock_enabled held = true
  /\ (events_of DisableWakelock held
       = [Entered Disable; OsCall 0x80000000; Stored false]
      /\ os_calls (events_of DisableWakelock held) = [0x80000000]
      /\ has_flag 0x80000000 0x00000002 = false
      /\ has_flag 0x80000000 0x00000001 = false
      /\ requests_sleep_prevention 0x80000000 = false
      /\ is_wakelock_enabled (state_after DisableWakelock held) = false).
Proof.
  split; [by_computation|]. split; [reflexivity|].
  refine (proj1 (DisableWakelock_spec held _) _);
    [by_computation | reflexivity].
Defined.

Lemma HandleMethodCall_dispatch_witness :
  "foo"%string <> "enableWindows"%string
  /\ "foo"%string <> "disableWindows"%string
  /\ (HandleMethodCall {| method_name := "foo"; arguments := None |} held
       = (tt, held, [Replied NotImplemented])
      /\ entered (events_of (HandleMethodCall
                    {| method_name := "foo"; arguments := None |}) held) = []
      /\ replies (events_of (HandleMethodCall
                    {| method_name := "foo"; arguments := None |}) held)
         = [NotImplemented]).
Proof.
  split; [discriminate|]. split; [discriminate|].
  apply (proj2 (proj2 (HandleMethodCall_dispatch
                         {| method_name := "foo"; arguments := None |} held)));
    simpl; discriminate.
Defined.

Lemma unknown_method_frame_witness :
  "foo"%string <> "enableWindows"%string
  /\ "foo"%string <> "disableWindows"%string
  /\ (replies (events_of (HandleMethodCall
                  {| method_name := "foo"; arguments := None |}) held)
       = [NotImplemented]
      /\ state_after (HandleMethodCall
                  {| method_name := "foo"; arguments := None |}) held = held
      /\ is_wakelock_enabled (state_after (HandleMethodCall
                  {| method_name := "foo"; arguments := None |}) held)
         = is_wakelock_enabled held
      /\ os_calls (events_of (HandleMethodCall
                  {| method_name := "foo"; arguments := None |}) held) = []).
Proof.
  split; [discriminate|]. split; [discriminate|].
  apply (unknown_method_frame {| method_name := "foo"; arguments := None |} held);
    simpl; discriminate.
Defined.

Lemma HandleMethodCall_ignores_arguments_witness :
  method_name enable_without_arguments = method_name enable_with_arguments
  /\ (HandleMethodCall enable_without_arguments released
       = HandleMethodCall enable_with_arguments released
      /\ replies (events_of (HandleMethodCall enable_without_arguments) released)
         = replies (events_of (HandleMethodCall enable_with_arguments) released)
      /\ state_after (HandleMethodCall enable_without_arguments) released
         = state_after (HandleMethodCall enable_with_arguments) released).
Proof.
  split; [reflexivity|].
  apply (HandleMethodCall_ignores_arguments
           enable_without_arguments enable_with_arguments released).
  reflexivity.
Defined.

Lemma destructor_releases_wakelock_witness :
  flags_well_formed
  /\ is_wakelock_enabled held = true
  /\ reachable enabled_then_destroyed
  /\ os_calls (events_of WakelockPlugin_destructor held) = [0x80000000]
  /\ match last_request (history (step enabled_then_destroyed Destroy)) with
     | Some es => requests_sleep_prevention es = false
     | None => True
     end.
Proof.
  split; [by_computation|]. split; [reflexivity|].
  split; [exact enabled_then_destroyed_reachable|].
  destruct (destructor_releases_wakelock held) as (_ & _ & _ & Hcall & Hlast).
  split.
  - refine (Hcall _). reflexivity.
  - apply Hlast; [by_computation | exact enabled_then_destroyed_reachable].
Defined.

Lemma destructor_when_released_witness :
  is_wakelock_enabled (statics enabled_then_destroyed) = false
  /\ (os_calls (events_of WakelockPlugin_destructor
                          (statics enabled_then_destroyed)) = []
      /\ statics (step enabled_then_destroyed Destroy)
         = statics enabled_then_destroyed
      /\ is_wakelock_enabled (statics (step enabled_then_destroyed Destroy))
         = false
      /\ os_calls (history (step enabled_then_destroyed Destroy))
         = os_calls (history enabled_then_destroyed)
      /\ last_request (history (step enabled_then_destroyed Destroy))
         = last_request (history enabled_then_destroyed)).
Proof.
  split; [reflexivity|].
  apply (destructor_when_released enabled_then_destroyed). reflexivity.
Defined.

Lemma wakelock_state_invariant_witness :
  flags_well_formed
  /\ reachable enabled_then_destroyed
  /\ flag_reflects_last_request enabled_then_destroyed.
Proof.
  split; [by_computation|].
  split; [exact enabled_then_destroyed_reachable|].
  apply wakelock_state_invariant;
    [by_computation | exact enabled_then_destroyed_reachable].
Defined.

Lemma every_request_is_continuous_witness :
  reachable enabled_then_destroyed
  /\ Forall (fun es =>
               (es = 0x80000003 \/ es = 0x80000000)
               /\ has_flag es 0x80000000 = true)
            (os_calls (history enabled_then_destroyed)).
Proof.
  split; [exact enabled_then_destroyed_reachable|].
  refine (every_request_is_continuous enabled_then_destroyed _).
  exact enabled_then_destroyed_reachable.
Defined.

Lemma last_request_follows_last_call_witness :
  existsb is_enable ([Enable; Enable] ++ [Disable]) = true
  /\ last_request
       (history (exec_all perform ([Enable; Enable] ++ [Disable])
                          process_start))
     = Some 0x80000000.
Proof.
  split; [reflexivity|].
  refine (proj1 (last_request_follows_last_call [Enable; Enable]
                                                Disable) _).
  reflexivity.
Defined.

(** C1 as the specification words it fails on the sequence made of one
    [DisableWakelock]: the flag is false at the start, the guard on line
    70 skips the call, and so there is no most recent request to equal
    the continuous-only one. *)
Lemma lone_disable_makes_no_request :
  os_calls (history (exec_all perform [Disable] process_start)) = []
  /\ last_request (history (exec_all perform [Disable] process_start))
     <> Some (request_for Disable).
Proof. split; [reflexivity | discriminate]. Qed.

End WindowsSDK.

(* ================================================================= *)
(** ** Further properties of the code *)

Lemma last_cons_default {A : Type} (x d : A) (l : list A) :
  last (x :: l) d = last l x.
Proof.
  revert x d. induction l as [|y l IH]; intros x d; [reflexivity|].
  change (last (x :: y :: l) d) with (last (y :: l) d).
  now rewrite (IH y d), (IH y x).
Qed.

Lemma exec_all_cons {X : Type} (f : X -> M unit) (x : X) (xs : list X)
    (p : Process) :
  exec_all f (x :: xs) p = exec_all f xs (exec (f x) p).
Proof. reflexivity. Qed.

Section MoreProperties.

Context {flags : ExecutionStateFlags}.

(** *** What an operation does, by the flag *)

Lemma perform_same (op : Operation) (g : Globals) :
  is_wakelock_enabled g = is_enable op ->
  perform op g = (tt, g, [Entered op]).
Proof. destruct op, g as [[|]]; simpl; (discriminate || reflexivity). Qed.

Lemma perform_change (op : Operation) (g : Globals) :
  is_wakelock_enabled g = negb (is_enable op) ->
  perform op g
  = (tt, {| is_wakelock_enabled := is_enable op |},
     [Entered op; OsCall (request_for op); Stored (is_enable op)]).
Proof. destruct op, g as [[|]]; simpl; (discriminate || reflexivity). Qed.

(** *** What an action does, by its operation *)

Lemma act_with_operation (a : Action) (op : Operation) (g : Globals) :
  operation_of a = Some op ->
  state_after (act a) g = state_after (perform op) g
  /\ os_calls (events_of (act a) g) = os_calls (events_of (perform op) g)
  /\ entered (events_of (act a) g) = entered (events_of (perform op) g).
Proof.
  destruct a as [|mc|]; simpl.
  - discriminate.
  - destruct (String.eqb_spec (method_name mc) "enableWindows") as [He|He].
    { intros [= <-]. rewrite (HandleMethodCall_enable mc He).
      unfold result_Success.
      rewrite state_after_then_reply, events_of_then_reply.
      rewrite os_calls_app, entered_app. simpl. now rewrite !app_nil_r. }
    destruct (String.eqb_spec (method_name mc) "disableWindows") as [Hd|Hd].
    { intros [= <-]. rewrite (HandleMethodCall_disable mc Hd).
      unfold result_Success.
      rewrite state_after_then_reply, events_of_then_reply.
      rewrite os_calls_app, entered_app. simpl. now rewrite !app_nil_r. }
    discriminate.
  - intros [= <-]. repeat split; reflexivity.
Qed.

Lemma act_without_operation (a : Action) (g : Globals) :
  operation_of a = None ->
  state_after (act a) g = g
  /\ os_calls (events_of (act a) g) = []
  /\ entered (events_of (act a) g) = [].
Proof.
  destruct a as [|mc|]; simpl.
  - intros _. repeat split; reflexivity.
  - destruct (String.eqb_spec (method_name mc) "enableWindows") as [He|He];
      [discriminate|].
    destruct (String.eqb_spec (method_name mc) "disableWindows") as [Hd|Hd];
      [discriminate|].
    intros _. rewrite (HandleMethodCall_other mc He Hd).
    repeat split; reflexivity.
  - discriminate.
Qed.

(** An action makes no request and keeps the flag, or turns the flag on
    with the enable request, or turns it off with the release request. *)
Lemma act_transition (a : Action) (g : Globals) :
  (os_calls (events_of (act a) g) = []
   /\ is_wakelock_enabled (state_after (act a) g) = is_wakelock_enabled g)
  \/ (is_wakelock_enabled g = false
      /\ os_calls (events_of (act a) g) = [request_for Enable]
      /\ is_wakelock_enabled (state_after (act a) g) = true)
  \/ (is_wakelock_enabled g = true
      /\ os_calls (events_of (act a) g) = [request_for Disable]
      /\ is_wakelock_enabled (state_after (act a) g) = false).
Proof.
  destruct (operation_of a) as [op|] eqn:E.
  - destruct (act_with_operation a op g E) as (-> & -> & _).
    unfold state_after, events_of.
    destruct op, (is_wakelock_enabled g) eqn:Eg.
    + left. now rewrite (perform_same Enable g Eg).
    + right. left. now rewrite (perform_change Enable g Eg).
    + right. right. now rewrite (perform_change Disable g Eg).
    + left. now rewrite (perform_same Disable g Eg).
  - destruct (act_without_operation a g E) as (-> & -> & _).
    left. split; reflexivity.
Qed.

(** *** The alternating sequence *)

Lemma alternating_requests_succ (n : nat) :
  alternating_requests (S n)
  = alternating_requests n
    ++ [if Nat.even n then request_for Enable else request_for Disable].
Proof.
  unfold alternating_requests. now rewrite seq_S, map_app.
Qed.

Lemma alternating_requests_even (k : nat) :
  alternating_requests (2 * k)
  = List.concat (repeat [request_for Enable; request_for Disable] k).
Proof.
  induction k as [|k IH]; [reflexivity|].
  replace (2 * S k)%nat with (S (S (2 * k))) by lia.
  rewrite !alternating_requests_succ, IH.
  assert (Heven : Nat.even (2 * k) = true).
  { apply Nat.even_spec. now exists k. }
  rewrite Nat.even_succ, <- Nat.negb_even, Heven. simpl negb. cbv iota.
  rewrite <- app_assoc. simpl app at 2.
  change (S k) with (1 + k)%nat. rewrite Nat.add_comm, repeat_app, concat_app.
  simpl. reflexivity.
Qed.

Lemma reachable_alternates (p : Process) :
  reachable p ->
  os_calls (history p)
    = alternating_requests (List.length (os_calls (history p)))
  /\ is_wakelock_enabled (statics p)
     = Nat.odd (List.length (os_calls (history p))).
Proof.
  intros Hp. induction Hp as [|p a Hp [IHcalls IHflag]].
  - split; reflexivity.
  - unfold step, exec. simpl. rewrite os_calls_app.
    destruct (act_transition a (statics p))
      as [[Hc Hf] | [(Hg & Hc & Hf) | (Hg & Hc & Hf)]];
      rewrite Hc, Hf.
    + rewrite app_nil_r. split; assumption.
    + rewrite length_app, Nat.add_1_r, alternating_requests_succ.
      rewrite Nat.odd_succ, <- IHcalls.
      rewrite Hg in IHflag. rewrite <- Nat.negb_even in IHflag.
      destruct (Nat.even (List.length (os_calls (history p))));
        [split; reflexivity | discriminate].
    + rewrite length_app, Nat.add_1_r, alternating_requests_succ.
      rewrite Nat.odd_succ, <- IHcalls.
      rewrite Hg in IHflag. rewrite <- Nat.negb_even in IHflag.
      destruct (Nat.even (List.length (os_calls (history p))));
        [discriminate | split; reflexivity].
Qed.

(* ----------------------------------------------------------------- *)
(** *** The handler *)

(** X1.  Whatever the method name and the state, [HandleMethodCall]
    replies exactly once, as the last thing it does, after at most one
    operating-system call.  The reply is success with [true] or "not
    implemented", never an error, and it is "not implemented" exactly
    when the name is neither ["enableWindows"] nor ["disableWindows"]. *)
Theorem HandleMethodCall_replies_once (mc : MethodCall EncodableValue)
    (g : Globals) :
  exists (before : list Event) (r : MethodResultCall EncodableValue),
    events_of (HandleMethodCall mc) g = before ++ [Replied r]
    /\ replies before = []
    /\ (List.length (os_calls before) <= 1)%nat
    /\ (r = Success (Some (EncodableBool true)) \/ r = NotImplemented)
    /\ (r = NotImplemented <->
        method_name mc <> "enableWindows"%string
        /\ method_name mc <> "disableWindows"%string).
Proof.
  destruct (string_dec (method_name mc) "enableWindows") as [He|He].
  { exists (events_of EnableWakelock g), (Success (Some (EncodableBool true))).
    rewrite (HandleMethodCall_enable mc He). unfold result_Success.
    rewrite events_of_then_reply.
    destruct g as [[|]]; simpl; repeat split; auto; try discriminate.
    all: intros [H _]; now contradiction H. }
  destruct (string_dec (method_name mc) "disableWindows") as [Hd|Hd].
  { exists (events_of DisableWakelock g), (Success (Some (EncodableBool true))).
    rewrite (HandleMethodCall_disable mc Hd). unfold result_Success.
    rewrite events_of_then_reply.
    destruct g as [[|]]; simpl; repeat split; auto; try discriminate.
    all: intros [_ H]; now contradiction H. }
  exists [], NotImplemented.
  rewrite (HandleMethodCall_other mc He Hd).
  simpl; repeat split; auto.
Qed.

(** X2.  Handling the same call a second time, right after the first,
    changes nothing: the state stays as the first handling left it, no
    operating-system call is made, nothing is assigned to the flag, and
    the reply is the one the first handling gave. *)
Theorem HandleMethodCall_twice (mc : MethodCall EncodableValue) (g : Globals) :
  state_after (HandleMethodCall mc) (state_after (HandleMethodCall mc) g)
  = state_after (HandleMethodCall mc) g
  /\ os_calls (events_of (HandleMethodCall mc)
                         (state_after (HandleMethodCall mc) g)) = []
  /\ (forall b : bool,
        ~ In (Stored b) (events_of (HandleMethodCall mc)
                                   (state_after (HandleMethodCall mc) g)))
  /\ replies (events_of (HandleMethodCall mc)
                        (state_after (HandleMethodCall mc) g))
     = replies (events_of (HandleMethodCall mc) g).
Proof.
  destruct (string_dec (method_name mc) "enableWindows") as [He|He].
  { rewrite (HandleMethodCall_enable mc He).
    destruct g as [[|]]; repeat split; try reflexivity;
      intros b [H|[H|[]]]; discriminate. }
  destruct (string_dec (method_name mc) "disableWindows") as [Hd|Hd].
  { rewrite (HandleMethodCall_disable mc Hd).
    destruct g as [[|]]; repeat split; try reflexivity;
      intros b [H|[H|[]]]; discriminate. }
  rewrite (HandleMethodCall_other mc He Hd).
  repeat split; try reflexivity.
  intros b [H|[]]; discriminate.
Qed.

(* ----------------------------------------------------------------- *)
(** *** The two operations together *)

(** X3.  From any state, [EnableWakelock] followed by [DisableWakelock]
    ends released with the release request as the most recent one, and
    [DisableWakelock] followed by [EnableWakelock] ends held with the
    enable request as the most recent one: the pair always makes the
    request of its second call, once, preceded by the other request
    exactly when the first call had something to change. *)
Theorem opposite_calls_compose (g : Globals) :
  (state_after (EnableWakelock ;; DisableWakelock) g = released
   /\ os_calls (events_of (EnableWakelock ;; DisableWakelock) g)
      = (if is_wakelock_enabled g then [] else [request_for Enable])
        ++ [request_for Disable]
   /\ last_request (events_of (EnableWakelock ;; DisableWakelock) g)
      = Some (request_for Disable))
  /\
  (state_after (DisableWakelock ;; EnableWakelock) g = held
   /\ os_calls (events_of (DisableWakelock ;; EnableWakelock) g)
      = (if is_wakelock_enabled g then [request_for Disable] else [])
        ++ [request_for Enable]
   /\ last_request (events_of (DisableWakelock ;; EnableWakelock) g)
      = Some (request_for Enable)).
Proof.
  destruct g as [[|]]; repeat split; reflexivity.
Qed.

(* ----------------------------------------------------------------- *)
(** *** The life of the process *)

Lemma same_wakelock_view_exec_all (acts : list Action) (p q : Process) :
  same_wakelock_view p q ->
  same_wakelock_view (exec_all act acts p)
                     (exec_all perform (operations_of acts) q).
Proof.
  revert p q. induction acts as [|a acts IH]; intros p q Hpq; [exact Hpq|].
  rewrite exec_all_cons. simpl operations_of.
  destruct Hpq as (Hs & Hc & He).
  destruct (operation_of a) as [op|] eqn:E.
  - rewrite exec_all_cons. apply IH.
    destruct (act_with_operation a op (statics p) E) as (Hs' & Hc' & He').
    unfold same_wakelock_view, exec. simpl.
    rewrite !os_calls_app, !entered_app, Hs', Hc', He', Hc, He, Hs.
    repeat split; reflexivity.
  - apply IH.
    destruct (act_without_operation a (statics p) E) as (Hs' & Hc' & He').
    unfold same_wakelock_view, exec. simpl.
    rewrite !os_calls_app, !entered_app, Hs', Hc', He', !app_nil_r.
    repeat split; assumption.
Qed.

(** X4.  As far as the flag, the operating-system calls and the entries
    into the two operations go, a run of the process is the run of the
    operations its actions come down to: ["enableWindows"] is
    [EnableWakelock], ["disableWindows"] and destruction are
    [DisableWakelock], and constructing an instance or handling any
    other method name is nothing at all. *)
Theorem lifecycle_is_its_operations (acts : list Action) (p : Process) :
  statics (exec_all act acts p)
  = statics (exec_all perform (operations_of acts) p)
  /\ os_calls (history (exec_all act acts p))
     = os_calls (history (exec_all perform (operations_of acts) p))
  /\ entered (history (exec_all act acts p))
     = entered (history (exec_all perform (operations_of acts) p)).
Proof.
  apply same_wakelock_view_exec_all. repeat split; reflexivity.
Qed.

(** X5.  After any run of actions from any process, the flag says
    whether the last action that comes down to an operation was an
    enable; if no action did, the flag is what it was. *)
Theorem flag_follows_last_operation (acts : list Action) (p : Process) :
  is_wakelock_enabled (statics (exec_all act acts p))
  = last (map is_enable (operations_of acts))
         (is_wakelock_enabled (statics p)).
Proof.
  revert p. induction acts as [|a acts IH]; intros p; [reflexivity|].
  rewrite exec_all_cons, IH. simpl operations_of.
  destruct (operation_of a) as [op|] eqn:E.
  - destruct (act_with_operation a op (statics p) E) as (Hs & _).
    simpl map. rewrite last_cons_default.
    unfold exec. simpl statics. now rewrite Hs, perform_flag.
  - destruct (act_without_operation a (statics p) E) as (Hs & _).
    unfold exec. simpl statics. now rewrite Hs.
Qed.

(** X6.  The operating-system calls of a reachable process alternate,
    beginning with the enable request: enable, release, enable, ...; and
    the flag is true exactly when their number is odd.  So a call is
    made only when the state changes, never twice the same in a row. *)
Theorem requests_alternate (p : Process) :
  reachable p ->
  os_calls (history p)
    = alternating_requests (List.length (os_calls (history p)))
  /\ is_wakelock_enabled (statics p)
     = Nat.odd (List.length (os_calls (history p))).
Proof. apply reachable_alternates. Qed.

(** X7.  Once an instance has been destroyed in a reachable process,
    the operating-system calls made so far pair up: they are some
    number of (enable, release) pairs, so every enable request has been
    followed by a release. *)
Theorem requests_balanced_after_destroy (p : Process) :
  reachable p ->
  exists k : nat,
    os_calls (history (step p Destroy))
    = List.concat (repeat [request_for Enable; request_for Disable] k).
Proof.
  intros Hp.
  destruct (reachable_alternates _ (reachable_step p Destroy Hp))
    as [Hcalls Hflag].
  assert (Hoff : is_wakelock_enabled (statics (step p Destroy)) = false)
    by apply DisableWakelock_clears.
  rewrite Hoff in Hflag. symmetry in Hflag.
  rewrite <- Nat.negb_even in Hflag. apply negb_false_iff in Hflag.
  apply Nat.even_spec in Hflag. destruct Hflag as [k Hk].
  exists k. rewrite Hcalls, Hk. apply alternating_requests_even.
Qed.

End MoreProperties.

(* ================================================================= *)
(** ** Registration and the end of the registrar *)


Section Registration.

Context {flags : ExecutionStateFlags}.



Lemma destructors_when_released (destructors : list (M unit)) :
  Forall (fun d => d = WakelockPlugin_destructor) destructors ->
  state_after (run_all destructors) released = released
  /\ os_calls (events_of (run_all destructors) released) = [].
Proof.
  induction 1 as [|d destructors -> _ [IHs IHc]]; [split; reflexivity|].
  simpl run_all. rewrite state_after_bind, events_of_bind, os_calls_app.
  change (state_after WakelockPlugin_destructor released) with released.
  now rewrite IHs, IHc.
Qed.

(** X9.  When a registrar that owns at least one plugin, all of them
    wakelock plugins, destroys them, the flag ends false, and the
    destruction as a whole makes one release request if the flag was
    true and no operating-system call if it was false, however many
    plugins there are. *)
Theorem destroy_plugins_releases (registrar : PluginRegistrar) (g : Globals) :
  owned_plugins registrar <> [] ->
  Forall (fun d => d = WakelockPlugin_destructor) (owned_plugins registrar) ->
  state_after (destroy_plugins registrar) g = released
  /\ os_calls (events_of (destroy_plugins registrar) g)
     = (if is_wakelock_enabled g then [ES_CONTINUOUS] else []).
Proof.
  unfold destroy_plugins.
  destruct (owned_plugins registrar) as [|d destructors];
    [intros H; now contradiction H|].
  intros _ Hall. inversion Hall as [|d' ds' -> Hrest]; subst.
  destruct (destructors_when_released destructors Hrest) as [Hs Hc].
  simpl run_all. rewrite state_after_bind, events_of_bind, os_calls_app.
  assert (Hoff : state_after WakelockPlugin_destructor g = released)
    by (destruct g as [[|]]; reflexivity).
  rewrite Hoff, Hs, Hc, app_nil_r.
  split; [reflexivity|]. destruct g as [[|]]; reflexivity.
Qed.

End Registration.

(* ================================================================= *)
(** ** Instances of the further properties *)

Section MoreInstances.

#[local] Existing Instance winnt_h.

Lemma requests_alternate_witness :
  reachable enabled_then_destroyed
  /\ (os_calls (history enabled_then_destroyed) = [0x80000003; 0x80000000]
      /\ is_wakelock_enabled (statics enabled_then_destroyed) = Nat.odd 2).
Proof.
  split; [exact enabled_then_destroyed_reachable|].
  refine (requests_alternate enabled_then_destroyed _).
  exact enabled_then_destroyed_reachable.
Defined.

Lemma requests_balanced_after_destroy_witness :
  reachable enabled_then_destroyed
  /\ exists k : nat,
       os_calls (history (step enabled_then_destroyed Destroy))
       = List.concat (repeat [0x80000003; 0x80000000] k).
Proof.
  split; [exact enabled_then_destroyed_reachable|].
  refine (requests_balanced_after_destroy enabled_then_destroyed _).
  exact enabled_then_destroyed_reachable.
Defined.


Lemma destroy_plugins_releases_witness :
  owned_plugins registered_twice <> []
  /\ Forall (fun d => d = WakelockPlugin_destructor)
            (owned_plugins registered_twice)
  /\ (state_after (destroy_plugins registered_twice) held = released
      /\ os_calls (events_of (destroy_plugins registered_twice) held)
         = [0x80000000]).
Proof.
  split; [discriminate|].
  split; [repeat constructor|].
  refine (destroy_plugins_releases registered_twice held _ _);
    [discriminate | repeat constructor].
Defined.

End MoreInstances.
